(** * MiningPoolMatcher: decoding coinbase scripts and attributing them to pools

    A shallow embedding of [MiningPoolMatcher.py]: [convert_script],
    [match_pool_in_columns], [sanitize_string], the per-row body of the
    loop of [process_data] with the export of a row, and the choice of files
    of [merge_csv_files], followed by the properties the specification
    states about them and by further properties of the code.

    Python values are modelled as follows.
    - A [str] is the list of its Unicode code points ([pystr]); a [bytes]
      object is the list of its bytes ([bytes]); both are lists of [N].
    - A dict that is iterated ([pool_data.items()]) is an association list in
      insertion order, which is the order of the JSON document.
    - An exception is a value of [exn]; code that can raise returns a
      [result], and [try ... except Exception] is [try_except]. *)

From Stdlib Require Import List String Ascii NArith ZArith Bool Lia DecimalString.
From Stdlib Require Import Permutation Sorted.
Import ListNotations.

Local Open Scope N_scope.
Local Open Scope list_scope.

(** ** Strings, bytes and exceptions *)

Definition codepoint := N.
Definition pystr := list codepoint.
Definition bytes := list N.

(** A string literal of the source, as a [pystr]. *)
Definition py (s : string) : pystr := map N_of_ascii (list_ascii_of_string s).

Inductive exn : Type :=
| BinasciiError (msg : pystr)   (* binascii.Error *)
| ValueError (msg : pystr).

(** [str(e)], what an f-string prints for [{e}]. *)
Definition exn_str (e : exn) : pystr :=
  match e with
  | BinasciiError msg => msg
  | ValueError msg => msg
  end.

Inductive result (A : Type) : Type :=
| Ok (a : A)
| Raise (e : exn).
Arguments Ok {A} a.
Arguments Raise {A} e.

Definition bind {A B} (r : result A) (k : A -> result B) : result B :=
  match r with
  | Ok a => k a
  | Raise e => Raise e
  end.

Notation "x <- r ;; k" := (bind r (fun x => k))
  (at level 61, r at next level, right associativity).

(** [try: body  except Exception as e: handler e]. *)
Definition try_except {A} (body : result A) (handler : exn -> result A) : result A :=
  match body with
  | Ok a => Ok a
  | Raise e => handler e
  end.

(** ** Character classes *)

Definition is_ascii (c : codepoint) : bool := c <? 128.

(** The test [32 <= b < 127] of [convert_script]. *)
Definition printable_byte (b : N) : bool := (32 <=? b) && (b <? 127).

(** The class [[\x20-\x7E]] whose complement [sanitize_string] deletes. *)
Definition in_x20_x7E (c : codepoint) : bool := (32 <=? c) && (c <=? 126).

(** The characters [[0-9a-fA-F]]. *)
Definition is_hex_digit (c : codepoint) : bool :=
  ((48 <=? c) && (c <=? 57)) || ((97 <=? c) && (c <=? 102)) || ((65 <=? c) && (c <=? 70)).

(** ** binascii.unhexlify and binascii.hexlify *)

(** The value of a hexadecimal digit, [None] for any other character. *)
Definition digit_value (c : codepoint) : option N :=
  if (48 <=? c) && (c <=? 57) then Some (c - 48)
  else if (97 <=? c) && (c <=? 102) then Some (c - 87)
  else if (65 <=? c) && (c <=? 70) then Some (c - 55)
  else None.

Definition odd_length_error : exn := BinasciiError (py "Odd-length string").
Definition non_hex_error : exn := BinasciiError (py "Non-hexadecimal digit found").
Definition non_ascii_error : exn :=
  ValueError (py "string argument should contain only ASCII characters").

(** The conversion loop of [unhexlify]: two digits per byte, left to right. *)
Fixpoint a2b_hex (s : pystr) : result bytes :=
  match s with
  | [] => Ok []
  | [_] => Raise odd_length_error
  | c1 :: c2 :: rest =>
      match digit_value c1, digit_value c2 with
      | Some top, Some bot =>
          bs <- a2b_hex rest ;; Ok (top * 16 + bot :: bs)
      | _, _ => Raise non_hex_error
      end
  end.

(** [binascii.unhexlify] on a [str]: the argument must be ASCII, then of even
    length, then made of hexadecimal digits, checked in this order. *)
Definition unhexlify (s : pystr) : result bytes :=
  if negb (forallb is_ascii s) then Raise non_ascii_error
  else if Nat.odd (List.length s) then Raise odd_length_error
  else a2b_hex s.

(** The lowercase hexadecimal digit of a value below 16. *)
Definition hex_digit (v : N) : codepoint := if v <? 10 then 48 + v else 87 + v.

(** [binascii.hexlify(b).decode('utf-8')]: two lowercase digits per byte.
    The digits are ASCII, so decoding them gives the same code points. *)
Definition hexlify (bs : bytes) : pystr :=
  flat_map (fun b => [hex_digit (b / 16); hex_digit (b mod 16)]) bs.

(** ** bytes.decode('utf-8', errors='ignore') *)

(** The decoder reads one byte at a time.  Between characters it is in no
    sequence ([None]); inside a multi-byte sequence it remembers how many
    continuation bytes are still due, the bits read so far and the range
    allowed for the next byte (the second byte of a sequence has a narrower
    range after E0, ED, F0 and F4, which excludes overlong forms, surrogates
    and code points above 10FFFF). *)
Record pending : Type := Pending {
  due : nat;
  bits : N;
  next_lo : N;
  next_hi : N
}.

Inductive step : Type :=
| Emit (c : codepoint)
| Cont (p : pending)
| Bad.

Definition first_byte (b : N) : step :=
  if b <? 128 then Emit b
  else if (194 <=? b) && (b <=? 223) then Cont (Pending 1 (N.land b 31) 128 191)
  else if b =? 224 then Cont (Pending 2 (N.land b 15) 160 191)
  else if b =? 237 then Cont (Pending 2 (N.land b 15) 128 159)
  else if (225 <=? b) && (b <=? 239) then Cont (Pending 2 (N.land b 15) 128 191)
  else if b =? 240 then Cont (Pending 3 (N.land b 7) 144 191)
  else if (241 <=? b) && (b <=? 243) then Cont (Pending 3 (N.land b 7) 128 191)
  else if b =? 244 then Cont (Pending 3 (N.land b 7) 128 143)
  else Bad.

Definition next_byte (p : pending) (b : N) : step :=
  if (next_lo p <=? b) && (b <=? next_hi p) then
    let acc := N.lor (N.shiftl (bits p) 6) (N.land b 63) in
    match due p with
    | S (S n) => Cont (Pending (S n) acc 128 191)
    | _ => Emit acc
    end
  else Bad.

(** With [errors='ignore'] an invalid or truncated sequence is dropped and
    decoding resumes at the byte that broke it: that byte is read again as a
    first byte. *)
Fixpoint decode_from (st : option pending) (bs : bytes) : pystr :=
  match bs with
  | [] => []
  | b :: rest =>
      let after (s : step) : pystr :=
        match s with
        | Emit c => c :: decode_from None rest
        | Cont p => decode_from (Some p) rest
        | Bad => decode_from None rest
        end in
      match st with
      | None => after (first_byte b)
      | Some p =>
          match next_byte p b with
          | Bad => after (first_byte b)
          | s => after s
          end
      end
  end.

Definition decode_utf8_ignore (bs : bytes) : pystr := decode_from None bs.

(** ** convert_script *)

(** The dict [{"UTF-8": ..., "ASCII": ..., "Hex": ...}]. *)
Record DecodedScript : Type := mkDecoded {
  UTF8 : pystr;
  ASCII : pystr;
  Hex : pystr
}.

(** The body of the outer [try].  The inner [try] around [decode] has no
    effect: with [errors='ignore'] decoding does not raise. *)
Definition convert_script_try (input_script : pystr) : result DecodedScript :=
  decoded_bytes <- unhexlify input_script ;;
  let utf8_decoded := decode_utf8_ignore decoded_bytes in
  let ascii_decoded :=
    map (fun b => if printable_byte b then b else 46 (* '.' *)) decoded_bytes in
  let hex_decoded := hexlify decoded_bytes in
  Ok (mkDecoded utf8_decoded ascii_decoded hex_decoded).

Definition convert_script (input_script : pystr) : result DecodedScript :=
  try_except (convert_script_try input_script)
    (fun e => Ok (mkDecoded (py "Error: " ++ exn_str e) (py "Error") (py "Error"))).

(** ** Python values *)

(** The values a cell of the table can hold.  Floating-point cells are left
    out of the model. *)
Inductive pyval : Type :=
| VNone
| VBool (b : bool)
| VInt (z : Z)
| VStr (s : pystr).

(** [str(v)]. *)
Definition py_str (v : pyval) : pystr :=
  match v with
  | VNone => py "None"
  | VBool true => py "True"
  | VBool false => py "False"
  | VInt z => py (NilZero.string_of_int (Z.to_int z))
  | VStr s => s
  end.

(** [isinstance(v, str)]. *)
Definition is_str (v : pyval) : bool :=
  match v with VStr _ => true | _ => false end.

(** ** str.lower and the operator [in] *)

(** [str.lower] on a character that is ASCII. *)
Definition lower_cp (c : codepoint) : codepoint :=
  if (65 <=? c) && (c <=? 90) then c + 32 else c.

(** [str.lower] follows the Unicode case tables of the interpreter, which are
    not part of the program.  The development uses two facts about it: on an
    ASCII string it maps A-Z to a-z and nothing else, and it deletes no
    character, so only the empty string lowers to the empty string. *)
Class StrLower : Type := {
  lower : pystr -> pystr;
  lower_ascii : forall s, forallb is_ascii s = true -> lower s = map lower_cp s;
  lower_nonempty : forall s, lower s = [] -> s = []
}.

(** The lowering that changes A-Z only; it agrees with [str.lower] on every
    ASCII string and is used to evaluate the model on concrete inputs. *)
Definition ascii_lower : StrLower :=
  {| lower := map lower_cp;
     lower_ascii := fun s _ => eq_refl;
     lower_nonempty := fun s => @map_eq_nil _ _ lower_cp s |}.

(** [b.startswith(a)]. *)
Fixpoint starts_with (a b : pystr) : bool :=
  match a, b with
  | [], _ => true
  | _ :: _, [] => false
  | x :: a', y :: b' => (x =? y) && starts_with a' b'
  end.

(** [needle in hay] for two strings. *)
Fixpoint contains (hay needle : pystr) : bool :=
  starts_with needle hay ||
  match hay with
  | [] => false
  | _ :: hay' => contains hay' needle
  end.

(** ** match_pool_in_columns *)

(** One entry of [coinbase_tags]: a dict with the keys ["name"] and ["link"]. *)
Record pool : Type := mkPool {
  name : pystr;
  link : pystr
}.

(** [coinbase_tags]: key and entry, in the order of [pool_data.items()]. *)
Definition pool_dict := list (pystr * pool).

(** [not s] for a string. *)
Definition is_empty (s : pystr) : bool :=
  match s with [] => true | _ :: _ => false end.

(** The coercion at the head of [match_pool_in_columns]. *)
Definition coerce (decoded_str : pyval) : pystr :=
  if is_str decoded_str then
    match decoded_str with VStr s => s | _ => [] end
  else
    match decoded_str with
    | VNone => []
    | v => py_str v
    end.

Section Matching.

Context {L : StrLower}.

(** The condition of the [if] inside the loop. *)
Definition tag_matches (decoded_str : pystr) (p : pool) : bool :=
  contains (lower decoded_str) (lower (name p)).

(** The [for] loop over [pool_data.items()]. *)
Fixpoint match_loop (decoded_str : pystr) (items : pool_dict) : pystr * pystr :=
  match items with
  | [] => ([], [])
  | (_, p) :: rest =>
      if tag_matches decoded_str p then (name p, link p)
      else match_loop decoded_str rest
  end.

Definition match_pool_in_columns (decoded_str : pyval) (pool_data : pool_dict)
  : pystr * pystr :=
  match_loop (coerce decoded_str) pool_data.

(** ** The body of the loop of process_data *)

(** The column a call of [match_pool_in_columns] is given. *)
Inductive column : Type := ColUTF8 | ColASCII.

(** One iteration of the loop over the rows: the columns searched, in
    order, and the pair appended to [pool_names] and [pool_links]. *)
Definition process_row (row : DecodedScript) (pool_data : pool_dict)
  : list column * (pystr * pystr) :=
  let utf8_decoded := VStr (UTF8 row) in
  let ascii_decoded := VStr (ASCII row) in
  let '(pool_name, pool_link) := match_pool_in_columns utf8_decoded pool_data in
  if is_empty pool_name then
    ([ColUTF8; ColASCII], match_pool_in_columns ascii_decoded pool_data)
  else
    ([ColUTF8], (pool_name, pool_link)).

(** ** Notions of the specification *)

(** The first tag, in declared order, that matches a text. *)
Definition first_match (text : pystr) (tags : pool_dict) : option (pystr * pool) :=
  find (fun kp => tag_matches text (snd kp)) tags.

End Matching.

(** No tag has the empty name. *)
Definition names_nonempty (tags : pool_dict) : Prop :=
  Forall (fun kp => name (snd kp) <> []) tags.

(** ** sanitize_string *)

(** [re.sub(pattern, '', s)] for a pattern that matches single characters:
    every character the pattern matches is deleted. *)
Fixpoint re_sub_delete (matches : codepoint -> bool) (s : pystr) : pystr :=
  match s with
  | [] => []
  | c :: rest =>
      if matches c then re_sub_delete matches rest
      else c :: re_sub_delete matches rest
  end.

Definition sanitize_string (value : pyval) : pyval :=
  if is_str value then
    match value with
    | VStr s => VStr (re_sub_delete (fun c => negb (in_x20_x7E c)) s)
    | v => v
    end
  else value.

(** ** The input the specification calls well formed *)

(** Even length, every character in [[0-9a-fA-F]]. *)
Definition well_formed_hex (s : pystr) : bool :=
  Nat.even (List.length s) && forallb is_hex_digit s.

(** ** The statements of the specification that the code does not meet as
       written, as predicates *)

Section Stated.

Context {L : StrLower}.

(** Search order: the UTF-8 view is searched first; the ASCII view is
    searched exactly when no tag matches the UTF-8 view; the result is the
    match found in the ASCII view exactly when a tag matches there and none
    matches the UTF-8 view; it is the empty pair exactly when no tag
    matches either view. *)
Definition search_order_as_stated (row : DecodedScript) (tags : pool_dict) : Prop :=
  let searched := fst (process_row row tags) in
  let res := snd (process_row row tags) in
  hd_error searched = Some ColUTF8
  /\ (In ColASCII searched <-> first_match (UTF8 row) tags = None)
  /\ ((In ColASCII searched
       /\ exists k p, first_match (ASCII row) tags = Some (k, p)
                      /\ res = (name p, link p))
      <-> (first_match (UTF8 row) tags = None
           /\ first_match (ASCII row) tags <> None))
  /\ (res = ([], [])
      <-> (first_match (UTF8 row) tags = None
           /\ first_match (ASCII row) tags = None)).

(** Coercion of the candidate: a value that is neither a string nor [None]
    is matched as its [str]; [None] is matched as the empty string; the
    empty string matches no tag and yields the empty pair. *)
Definition coercion_as_stated (tags : pool_dict) : Prop :=
  (forall v, is_str v = false -> v <> VNone ->
             match_pool_in_columns v tags
             = match_pool_in_columns (VStr (py_str v)) tags)
  /\ match_pool_in_columns VNone tags = match_pool_in_columns (VStr []) tags
  /\ first_match [] tags = None
  /\ match_pool_in_columns (VStr []) tags = ([], []).

End Stated.

(** A view carries a diagnostic marker describing the failure [e]: it starts
    with the word Error and contains the message of [e]. *)
Definition carries_diagnostic (view : pystr) (e : exn) : Prop :=
  starts_with (py "Error") view = true /\ contains view (exn_str e) = true.

(** Malformed input: both text views carry a diagnostic marker describing the
    failure, and the hex view is the literal Error. *)
Definition error_fallback_as_stated (s : pystr) : Prop :=
  exists e d,
    unhexlify s = Raise e
    /\ convert_script s = Ok d
    /\ carries_diagnostic (UTF8 d) e
    /\ carries_diagnostic (ASCII d) e
    /\ Hex d = py "Error".

(** ** The rows of process_data *)

(** The cells of a row of [merged_df] that [process_data] reads or exports;
    the cell [Input script] holds a string. *)
Record InputRow : Type := mkRow {
  input_script : pystr;
  tx_hash : pyval;
  timestamp : pyval;
  date : pyval
}.

Section Rows.

Context {L : StrLower}.

(** What the loop appends to [pool_names] and [pool_links] for a row whose
    script is [input_script]: the row is decoded, then matched. *)
Definition attribute_script (input_script : pystr) (pool_data : pool_dict)
  : result (pystr * pystr) :=
  row <- convert_script input_script ;;
  Ok (snd (process_row row pool_data)).

(** The row of [extracted_df] for one input row: after the pool columns are
    set, [applymap(sanitize_string)] goes over every cell, and the columns
    Mining Pool Name, Mining Pool Link, TX hash, Timestamp, Date are kept, in
    this order. *)
Definition export_row (r : InputRow) (pool_data : pool_dict) : result (list pyval) :=
  attribution <- attribute_script (input_script r) pool_data ;;
  let '(pool_name, pool_link) := attribution in
  Ok (map sanitize_string
        [VStr pool_name; VStr pool_link; tx_hash r; timestamp r; date r]).

End Rows.

(** ** The file names of merge_csv_files *)

(** [s.endswith(suffix)]. *)
Definition ends_with (s suffix : pystr) : bool :=
  starts_with (rev suffix) (rev s).

(** [a < b] on strings: the first differing code point decides, a proper
    prefix is smaller. *)
Fixpoint str_ltb (a b : pystr) : bool :=
  match a, b with
  | _, [] => false
  | [], _ :: _ => true
  | x :: a', y :: b' =>
      if x <? y then true
      else if y <? x then false
      else str_ltb a' b'
  end.

(** [list.sort()] on strings: ascending, comparing with [<] only, equal
    elements kept in their order. *)
Fixpoint insert_sorted (x : pystr) (l : list pystr) : list pystr :=
  match l with
  | [] => [x]
  | y :: l' => if str_ltb y x then y :: insert_sorted x l' else x :: l
  end.

Definition list_sort (l : list pystr) : list pystr :=
  fold_right insert_sorted [] l.

(** [all_files] of [merge_csv_files], from the names [os.listdir] returned:
    the names that end in .csv, sorted.  The files are read in this order. *)
Definition all_files (listing : list pystr) : list pystr :=
  list_sort (filter (fun f => ends_with f (py ".csv")) listing).

(** What the decoder knows inside a sequence: the next byte must be a
    continuation byte, and the bits read so far exclude a result below 128. *)
Definition pending_ok (p : pending) : Prop :=
  128 <= next_lo p /\ next_hi p <= 191
  /\ (if (due p <=? 1)%nat then 128 else 2) <= bits p * 64 + (next_lo p - 128).

(** ** Concrete inputs *)

Definition tag_f2pool : pool := mkPool (py "F2Pool") (py "https://www.f2pool.com").
Definition tags_pool_superpool : pool_dict :=
  [ (py "a", mkPool (py "Pool") (py "https://pool.example"));
    (py "b", mkPool (py "SuperPool") (py "https://superpool.example")) ].
Definition tags_two : pool_dict :=
  [ (py "f2pool", tag_f2pool);
    (py "antpool", mkPool (py "AntPool") (py "https://www.antpool.com")) ].
(** A configuration whose second entry has the empty name. *)
Definition tags_empty_name : pool_dict :=
  [ (py "k1", mkPool (py "A.B") (py "l1"));
    (py "k2", mkPool [] (py "l2")) ].
(** The decoding of the script 410142: the bytes A, 01, B. *)
Definition row_A01B : DecodedScript := mkDecoded [65; 1; 66] (py "A.B") (py "410142").

(** * Properties *)

(** ** Substrings *)

Lemma starts_with_spec (a b : pystr) :
  starts_with a b = true <-> exists post, b = a ++ post.
Proof.
  revert b; induction a as [|x a IH]; intros b; simpl.
  - split; [intros _; now exists b | reflexivity].
  - destruct b as [|y b].
    + split; [discriminate | intros [post H]; discriminate].
    + rewrite andb_true_iff, N.eqb_eq, IH. split.
      * intros [-> [post ->]]. now exists post.
      * intros [post H]. injection H as -> ->. split; [reflexivity | now exists post].
Qed.

Lemma contains_spec (hay needle : pystr) :
  contains hay needle = true <-> exists pre post, hay = pre ++ needle ++ post.
Proof.
  induction hay as [|c hay IH]; simpl; rewrite orb_true_iff, starts_with_spec.
  - split.
    + intros [[post H] | H]; [| discriminate]. exists [], post. exact H.
    + intros [pre [post H]]. left.
      destruct pre; [now exists post |discriminate].
  - rewrite IH. split.
    + intros [[post H] | [pre [post H]]].
      * exists [], post. exact H.
      * exists (c :: pre), post. simpl. now rewrite H.
    + intros [[|c' pre] [post H]].
      * left. now exists post.
      * right. injection H as _ H. now exists pre, post.
Qed.

Lemma contains_nil_needle (hay : pystr) : contains hay [] = true.
Proof. destruct hay; reflexivity. Qed.

Lemma contains_nil_hay (needle : pystr) :
  contains [] needle = true -> needle = [].
Proof. destruct needle; [reflexivity | discriminate]. Qed.

Lemma contains_refl (s : pystr) : contains s s = true.
Proof. apply contains_spec. exists [], []. simpl. now rewrite app_nil_r. Qed.

(** ** The matching loop and the first matching tag *)

Lemma find_first {A} (f : A -> bool) (l : list A) (x : A) :
  find f l = Some x ->
  exists before after,
    l = before ++ x :: after /\ Forall (fun y => f y = false) before /\ f x = true.
Proof.
  induction l as [|y l IH]; simpl; [discriminate |].
  destruct (f y) eqn:Hy.
  - intros [= ->]. exists [], l. repeat split; [constructor | exact Hy].
  - intros H. destruct (IH H) as [before [after [-> [Hb Hx]]]].
    exists (y :: before), after. repeat split; [constructor; assumption | exact Hx].
Qed.

Lemma find_none_iff {A} (f : A -> bool) (l : list A) :
  find f l = None <-> Forall (fun y => f y = false) l.
Proof.
  induction l as [|y l IH]; simpl.
  - split; [constructor | reflexivity].
  - destruct (f y) eqn:Hy.
    + split; [discriminate | intros H; inversion H; congruence].
    + rewrite IH. split; [now constructor | intros H; now inversion H].
Qed.

Section MatchingFacts.

Context {L : StrLower}.

Lemma match_loop_first_match (text : pystr) (tags : pool_dict) :
  match_loop text tags =
  match first_match text tags with
  | Some (_, p) => (name p, link p)
  | None => ([], [])
  end.
Proof.
  unfold first_match.
  induction tags as [|[k p] tags IH]; simpl; [reflexivity |].
  destruct (tag_matches text p); [reflexivity | exact IH].
Qed.

Lemma match_str (text : pystr) (tags : pool_dict) :
  match_pool_in_columns (VStr text) tags = match_loop text tags.
Proof. reflexivity. Qed.

Lemma first_match_nonempty (text : pystr) (tags : pool_dict) k p :
  names_nonempty tags -> first_match text tags = Some (k, p) -> name p <> [].
Proof.
  intros Hn Hf. apply find_some in Hf as [Hin _].
  unfold names_nonempty in Hn. rewrite Forall_forall in Hn.
  exact (Hn _ Hin).
Qed.

Lemma tag_matches_empty_text (p : pool) :
  tag_matches [] p = true <-> name p = [].
Proof.
  unfold tag_matches. rewrite (lower_ascii []) by reflexivity. simpl. split.
  - intros H. apply lower_nonempty. now apply contains_nil_hay.
  - intros ->. rewrite (lower_ascii []) by reflexivity. reflexivity.
Qed.

(** What one row yields, by the first matching tag of each view. *)
Lemma process_row_cases (row : DecodedScript) (tags : pool_dict) :
  process_row row tags =
  match first_match (UTF8 row) tags with
  | Some (_, p) =>
      if is_empty (name p)
      then ([ColUTF8; ColASCII], match_loop (ASCII row) tags)
      else ([ColUTF8], (name p, link p))
  | None => ([ColUTF8; ColASCII], match_loop (ASCII row) tags)
  end.
Proof.
  unfold process_row. rewrite !match_str, (match_loop_first_match (UTF8 row)).
  destruct (first_match (UTF8 row) tags) as [[k p]|]; reflexivity.
Qed.

End MatchingFacts.

Ltac lower_ascii_eval :=
  repeat match goal with
         | |- context [lower ?s] =>
             rewrite (lower_ascii s) by (vm_compute; reflexivity)
         end.

(** ** The search order of process_data *)

(** C1 (as amended): for every decoded record and every tag set with no empty
    tag name, the UTF-8 view is searched first, the ASCII view is searched if
    and only if no tag matches the UTF-8 view, the result is the match found in
    the ASCII view exactly when a tag matches there and none matches the UTF-8
    view, and it is the empty pair exactly when no tag matches either view;
    when a tag matches the UTF-8 view only that view is searched and its first
    match is the result. *)
Theorem search_order_utf8_then_ascii
  {L : StrLower} (row : DecodedScript) (tags : pool_dict) :
  names_nonempty tags ->
  search_order_as_stated row tags
  /\ (forall k p, first_match (UTF8 row) tags = Some (k, p) ->
                  process_row row tags = ([ColUTF8], (name p, link p))).
Proof.
  intros Hn. unfold search_order_as_stated.
  rewrite process_row_cases.
  destruct (first_match (UTF8 row) tags) as [[k p]|] eqn:Hu.
  - assert (Hp : name p <> []) by (eapply first_match_nonempty; eassumption).
    destruct (name p) as [|c n] eqn:Hname; [congruence |]. simpl.
    split; [split; [reflexivity |]; split; [| split] |].
    + split; [intros [H | []] | ]; discriminate.
    + split; [intros [[H | []] _] | intros [H _]]; discriminate.
    + split; [intros H | intros [H _]]; discriminate.
    + intros k' p' [= _ <-]. now rewrite Hname.
  - simpl. rewrite match_loop_first_match.
    split; [split; [reflexivity |]; split; [| split] | discriminate].
    + split; [reflexivity | intros _; right; now left].
    + split.
      * intros [_ [k [p [H _]]]]. split; [reflexivity | congruence].
      * intros [_ H]. split; [right; now left |].
        destruct (first_match (ASCII row) tags) as [[k p]|]; [| congruence].
        now exists k, p.
    + destruct (first_match (ASCII row) tags) as [[k p]|] eqn:Ha.
      * assert (Hp : name p <> []) by (eapply first_match_nonempty; eassumption).
        split; [intros [= H _]; contradiction | intros [_ H]; discriminate].
      * split; [now split | reflexivity].
Qed.

Lemma search_order_witness :
  names_nonempty tags_two
  /\ @search_order_as_stated ascii_lower
       (mkDecoded (py "mined by f2pool") (py "mined by f2pool") (py "6d"))
       tags_two.
Proof.
  assert (H : names_nonempty tags_two) by (repeat constructor; discriminate).
  split; [exact H |].
  exact (proj1 (@search_order_utf8_then_ascii ascii_lower _ tags_two H)).
Defined.

(** The record [row_A01B] is what [convert_script] returns for 410142. *)
Example row_A01B_decoded : convert_script (py "410142") = Ok row_A01B.
Proof. reflexivity. Qed.

(** With a tag of empty name the ASCII view is searched although a tag
    matched the UTF-8 view, and the result comes from the ASCII view. *)
Example row_A01B_empty_name {L : StrLower} :
  first_match (UTF8 row_A01B) tags_empty_name
  = Some (py "k2", mkPool [] (py "l2"))
  /\ process_row row_A01B tags_empty_name
     = ([ColUTF8; ColASCII], (py "A.B", py "l1")).
Proof.
  assert (H : first_match (UTF8 row_A01B) tags_empty_name
              = Some (py "k2", mkPool [] (py "l2"))).
  { unfold first_match, tags_empty_name, tag_matches; cbn [find snd name].
    lower_ascii_eval. reflexivity. }
  split; [exact H |].
  rewrite process_row_cases, H. cbn [name is_empty].
  unfold tags_empty_name, tag_matches; cbn [match_loop name link].
  unfold tag_matches; cbn [name]. lower_ascii_eval. reflexivity.
Qed.

(** C1 (as stated) fails: for the decoding of 410142 and a tag set whose
    second tag has the empty name, a tag matches the UTF-8 view and the ASCII
    view is searched all the same. *)
Lemma search_order_as_stated_fails :
  ~ @search_order_as_stated ascii_lower row_A01B tags_empty_name.
Proof.
  intros [_ [[H _] _]]. vm_compute in H.
  specialize (H (or_intror (or_introl eq_refl))). discriminate H.
Qed.

(** ** First match wins *)

(** C2: when some tag of the tag set matches the text (its lowered name is a
    substring of the lowered text), the result is the name and link of the
    first such tag in declared order: every tag before it does not match,
    whatever the tags after it are. *)
Theorem first_declared_match_wins
  {L : StrLower} (text : pystr) (tags : pool_dict) :
  (exists kp, In kp tags /\ tag_matches text (snd kp) = true) ->
  exists before k p after,
    tags = before ++ (k, p) :: after
    /\ Forall (fun kp => tag_matches text (snd kp) = false) before
    /\ tag_matches text p = true
    /\ match_pool_in_columns (VStr text) tags = (name p, link p).
Proof.
  intros [kp [Hin Hm]].
  rewrite match_str, match_loop_first_match.
  destruct (first_match text tags) as [[k p]|] eqn:Hf.
  - destruct (find_first _ _ _ Hf) as [before [after [Ht [Hb Hp]]]].
    exists before, k, p, after. auto.
  - unfold first_match in Hf. rewrite find_none_iff, Forall_forall in Hf.
    specialize (Hf kp Hin). simpl in Hf. congruence.
Qed.

Lemma first_declared_match_wins_witness :
  exists before k p after,
    tags_pool_superpool = before ++ (k, p) :: after
    /\ Forall (fun kp => @tag_matches ascii_lower (py "SuperPool block") (snd kp) = false)
         before
    /\ @tag_matches ascii_lower (py "SuperPool block") p = true
    /\ @match_pool_in_columns ascii_lower (VStr (py "SuperPool block"))
         tags_pool_superpool
       = (name p, link p).
Proof.
  apply (@first_declared_match_wins ascii_lower).
  exists (py "b", mkPool (py "SuperPool") (py "https://superpool.example")).
  split; [right; left; reflexivity | reflexivity].
Defined.

(** The example of the specification: Pool is declared before SuperPool. *)
Example pool_before_superpool {L : StrLower} :
  match_pool_in_columns (VStr (py "SuperPool block")) tags_pool_superpool
  = (py "Pool", py "https://pool.example").
Proof.
  unfold match_pool_in_columns, tags_pool_superpool; simpl. unfold tag_matches; simpl.
  lower_ascii_eval. reflexivity.
Qed.

(** ** Case-insensitive substring matching *)

(** C6: a tag matches a text exactly when its lowered name occurs as a
    substring of the lowered text; against a single tag the result is that
    tag's name and link when it matches and the empty pair otherwise; the tag
    named F2Pool matches the text mined by f2pool today, which is attributed
    to F2Pool. *)
Theorem match_is_case_insensitive_substring {L : StrLower} :
  (forall text p,
      tag_matches text p = true
      <-> exists pre post, lower text = pre ++ lower (name p) ++ post)
  /\ (forall text k p,
         match_pool_in_columns (VStr text) [(k, p)]
         = if tag_matches text p then (name p, link p) else ([], []))
  /\ tag_matches (py "mined by f2pool today") tag_f2pool = true
  /\ match_pool_in_columns (VStr (py "mined by f2pool today")) [(py "f2pool", tag_f2pool)]
     = (py "F2Pool", link tag_f2pool).
Proof.
  assert (Hex : tag_matches (py "mined by f2pool today") tag_f2pool = true).
  { unfold tag_matches, tag_f2pool; simpl. lower_ascii_eval. reflexivity. }
  assert (Hone : forall text k p,
             match_pool_in_columns (VStr text) [(k, p)]
             = if tag_matches text p then (name p, link p) else ([], []))
    by reflexivity.
  split; [| split; [| split]].
  - intros text p. unfold tag_matches. apply contains_spec.
  - exact Hone.
  - exact Hex.
  - rewrite Hone, Hex. reflexivity.
Qed.

(** ** No match *)

(** C7: when no tag matches the UTF-8 view and no tag matches the ASCII view,
    both views are searched and the row gets the pair of empty strings; the
    pair is an ordinary return value of the matcher. *)
Theorem no_match_gives_empty_pair
  {L : StrLower} (row : DecodedScript) (tags : pool_dict) :
  Forall (fun kp => tag_matches (UTF8 row) (snd kp) = false
                    /\ tag_matches (ASCII row) (snd kp) = false) tags ->
  match_pool_in_columns (VStr (UTF8 row)) tags = ([], [])
  /\ match_pool_in_columns (VStr (ASCII row)) tags = ([], [])
  /\ process_row row tags = ([ColUTF8; ColASCII], ([], [])).
Proof.
  intros H.
  assert (Hu : first_match (UTF8 row) tags = None).
  { apply find_none_iff. eapply Forall_impl; [| exact H]. now intros kp [? _]. }
  assert (Ha : first_match (ASCII row) tags = None).
  { apply find_none_iff. eapply Forall_impl; [| exact H]. now intros kp [_ ?]. }
  rewrite process_row_cases, !match_str, !match_loop_first_match, Hu, Ha. auto.
Qed.

Lemma no_match_gives_empty_pair_witness :
  @process_row ascii_lower
    (mkDecoded (py "random data xyz") (py "random data xyz") (py "72"))
    tags_two
  = ([ColUTF8; ColASCII], ([], [])).
Proof.
  apply (@no_match_gives_empty_pair ascii_lower).
  repeat constructor.
Defined.

(** ** Coercion of the candidate *)

(** C9 (as amended): for every tag set with no empty tag name, a candidate
    that is neither a string nor None is matched as its textual
    representation, None is matched as the empty string, and the empty string
    matches no tag and yields the pair of empty strings. *)
Theorem candidate_coercion {L : StrLower} (tags : pool_dict) :
  names_nonempty tags -> coercion_as_stated tags.
Proof.
  intros Hn.
  assert (Hnone : first_match [] tags = None).
  { apply find_none_iff. unfold names_nonempty in Hn.
    eapply Forall_impl; [| exact Hn]. intros [k p] Hp; simpl in *.
    destruct (tag_matches [] p) eqn:Hm; [| reflexivity].
    apply tag_matches_empty_text in Hm. contradiction. }
  unfold coercion_as_stated. split; [| split; [| split]].
  - intros [| b | z | s] Hs Hv; try reflexivity. congruence.
  - reflexivity.
  - exact Hnone.
  - now rewrite match_str, match_loop_first_match, Hnone.
Qed.

Lemma candidate_coercion_witness :
  names_nonempty tags_two /\ @coercion_as_stated ascii_lower tags_two.
Proof.
  assert (H : names_nonempty tags_two) by (repeat constructor; discriminate).
  split; [exact H | exact (@candidate_coercion ascii_lower tags_two H)].
Defined.

(** A number is matched through its decimal text. *)
Example int_candidate {L : StrLower} :
  match_pool_in_columns (VInt 42) [(py "k", mkPool (py "42") (py "l"))]
  = (py "42", py "l").
Proof.
  unfold match_pool_in_columns; simpl. unfold tag_matches; simpl.
  lower_ascii_eval. reflexivity.
Qed.

(** The tag of empty name matches the empty candidate. *)
Example none_candidate_empty_name {L : StrLower} :
  match_pool_in_columns VNone [(py "k", mkPool [] (py "x"))] = ([], py "x").
Proof.
  assert (H : tag_matches [] (mkPool [] (py "x")) = true)
    by (now apply tag_matches_empty_text).
  unfold match_pool_in_columns. cbn [coerce is_str match_loop].
  now rewrite H.
Qed.

(** C9 (as stated) fails: against the tag set whose only tag has the empty
    name and the link x, the empty candidate matches that tag and the result
    is not the pair of empty strings. *)
Lemma coercion_as_stated_fails :
  ~ @coercion_as_stated ascii_lower [(py "k", mkPool [] (py "x"))].
Proof.
  intros [_ [_ [H _]]]. vm_compute in H. discriminate H.
Qed.

(** ** sanitize_string *)

Lemma re_sub_delete_filter (matches : codepoint -> bool) (s : pystr) :
  re_sub_delete matches s = filter (fun c => negb (matches c)) s.
Proof.
  induction s as [|c s IH]; simpl; [reflexivity |].
  destruct (matches c); simpl; now rewrite IH.
Qed.

Lemma sanitize_str_filter (s : pystr) :
  sanitize_string (VStr s) = VStr (filter in_x20_x7E s).
Proof.
  unfold sanitize_string. cbn [is_str]. rewrite re_sub_delete_filter. f_equal.
  apply filter_ext. intros c. apply negb_involutive.
Qed.

Lemma filter_all {A} (f : A -> bool) (l : list A) :
  forallb f l = true -> filter f l = l.
Proof.
  induction l as [|x l IH]; simpl; [reflexivity |].
  destruct (f x); simpl; [intros H; now rewrite IH | discriminate].
Qed.

Lemma filter_idem {A} (f : A -> bool) (l : list A) :
  filter f (filter f l) = filter f l.
Proof.
  induction l as [|x l IH]; simpl; [reflexivity |].
  destruct (f x) eqn:Hx; simpl; [rewrite Hx, IH |]; auto.
Qed.

(** C8: on a string, sanitize keeps the characters in the range 0x20..0x7E,
    in order, and deletes all others (so every character of the result is
    in the range, and a string made of such characters is unchanged); a value
    that is not a string is returned unchanged; sanitize is idempotent. *)
Theorem sanitize_string_spec :
  (forall s, sanitize_string (VStr s)
             = VStr (filter (fun c => (32 <=? c) && (c <=? 126)) s))
  /\ (forall s s', sanitize_string (VStr s) = VStr s' ->
                   forall c, In c s' <-> In c s /\ 32 <= c <= 126)
  /\ (forall s, forallb in_x20_x7E s = true -> sanitize_string (VStr s) = VStr s)
  /\ (forall v, is_str v = false -> sanitize_string v = v)
  /\ (forall v, sanitize_string (sanitize_string v) = sanitize_string v)
  /\ sanitize_string (VStr ([1] ++ py "a b" ++ [10; 127; 233] ++ py "~"))
     = VStr (py "a b~").
Proof.
  split; [exact sanitize_str_filter |].
  split; [| split; [| split; [| split]]].
  - intros s s'. rewrite sanitize_str_filter. intros [= <-] c.
    rewrite filter_In. unfold in_x20_x7E.
    rewrite andb_true_iff, N.leb_le, N.leb_le. reflexivity.
  - intros s H. rewrite sanitize_str_filter. now rewrite filter_all.
  - intros v H. unfold sanitize_string. now rewrite H.
  - intros [| b | z | s]; try reflexivity.
    rewrite !sanitize_str_filter. now rewrite filter_idem.
  - reflexivity.
Qed.

(** ** Hexadecimal digits and bytes *)

Ltac cmp_cases :=
  repeat match goal with
         | |- context [?a <=? ?b] => destruct (N.leb_spec a b)
         | |- context [?a <? ?b] => destruct (N.ltb_spec a b)
         | |- context [?a =? ?b] => destruct (N.eqb_spec a b)
         end; cbn [andb orb negb].

Lemma digit_value_hex (c : codepoint) :
  is_hex_digit c = true ->
  exists v, digit_value c = Some v /\ v < 16 /\ hex_digit v = lower_cp c.
Proof.
  unfold is_hex_digit, digit_value, lower_cp.
  cmp_cases; intros Hhex; try discriminate Hhex;
    eexists; (split; [reflexivity |]); unfold hex_digit; cmp_cases; lia.
Qed.

Lemma digit_value_some (c v : N) :
  digit_value c = Some v -> is_hex_digit c = true.
Proof.
  unfold is_hex_digit, digit_value.
  cmp_cases; intros Hv; try discriminate Hv; reflexivity.
Qed.

Lemma hex_digit_is_ascii (c : codepoint) : is_hex_digit c = true -> is_ascii c = true.
Proof.
  unfold is_hex_digit, is_ascii.
  cmp_cases; intros Hhex; try discriminate Hhex; try reflexivity; lia.
Qed.

Lemma byte_high (top bot : N) : bot < 16 -> (top * 16 + bot) / 16 = top.
Proof. intros H. symmetry. apply (N.div_unique _ 16 top bot); lia. Qed.

Lemma byte_low (top bot : N) : bot < 16 -> (top * 16 + bot) mod 16 = bot.
Proof. intros H. symmetry. apply (N.mod_unique _ 16 top bot); lia. Qed.

(** Induction on a list two elements at a time. *)
Lemma pair_ind {A} (P : list A -> Prop) :
  P [] -> (forall a, P [a]) -> (forall a b l, P l -> P (a :: b :: l)) ->
  forall l, P l.
Proof.
  intros H0 H1 H2 l.
  enough (H : P l /\ forall a, P (a :: l)) by apply H.
  induction l as [|b l [IH1 IH2]]; split; auto.
Qed.

(** On digits, the conversion loop succeeds and [hexlify] gives the digits
    back in lower case. *)
Lemma a2b_hex_digits (s : pystr) :
  Nat.even (List.length s) = true -> forallb is_hex_digit s = true ->
  exists bs, a2b_hex s = Ok bs
             /\ hexlify bs = map lower_cp s
             /\ (2 * List.length bs = List.length s)%nat.
Proof.
  induction s as [| c | c1 c2 s IH] using pair_ind.
  - intros _ _. now exists [].
  - discriminate.
  - intros He Hd. cbn [forallb] in Hd.
    apply andb_true_iff in Hd as [H1 Hd]. apply andb_true_iff in Hd as [H2 Hd].
    destruct (IH He Hd) as [bs [Hbs [Hhex Hlen]]].
    destruct (digit_value_hex c1 H1) as [top [Ht [Htop Hc1]]].
    destruct (digit_value_hex c2 H2) as [bot [Hb [Hbot Hc2]]].
    exists (top * 16 + bot :: bs). cbn [a2b_hex]. rewrite Ht, Hb, Hbs.
    split; [reflexivity |]. split.
    + cbn [hexlify flat_map app map].
      rewrite byte_high, byte_low by assumption.
      fold (hexlify bs). now rewrite Hhex, Hc1, Hc2.
    + cbn [List.length]. lia.
Qed.

Lemma a2b_hex_ok (s : pystr) (bs : bytes) :
  a2b_hex s = Ok bs ->
  Nat.even (List.length s) = true /\ forallb is_hex_digit s = true.
Proof.
  revert bs. induction s as [| c | c1 c2 s IH] using pair_ind; intros bs.
  - now split.
  - discriminate.
  - cbn [a2b_hex].
    destruct (digit_value c1) as [top|] eqn:H1; [| discriminate].
    destruct (digit_value c2) as [bot|] eqn:H2; [| discriminate].
    destruct (a2b_hex s) as [bs'|e] eqn:Hs; [| discriminate].
    intros _. destruct (IH bs' eq_refl) as [He Hd].
    split; [exact He |]. cbn [forallb].
    now rewrite (digit_value_some _ _ H1), (digit_value_some _ _ H2), Hd.
Qed.

Lemma hex_digits_ascii (s : pystr) :
  forallb is_hex_digit s = true -> forallb is_ascii s = true.
Proof.
  rewrite !forallb_forall. intros H c Hc. apply hex_digit_is_ascii. auto.
Qed.

(** [unhexlify] succeeds on the well-formed strings and on no other. *)
Lemma unhexlify_well_formed (s : pystr) :
  well_formed_hex s = true ->
  exists bs, unhexlify s = Ok bs
             /\ hexlify bs = map lower_cp s
             /\ (2 * List.length bs = List.length s)%nat.
Proof.
  unfold well_formed_hex. rewrite andb_true_iff. intros [He Hd].
  unfold unhexlify. rewrite (hex_digits_ascii s Hd). cbn [negb].
  rewrite <- Nat.negb_even, He. cbn [negb].
  now apply a2b_hex_digits.
Qed.

Lemma unhexlify_ok (s : pystr) (bs : bytes) :
  unhexlify s = Ok bs -> well_formed_hex s = true.
Proof.
  unfold unhexlify, well_formed_hex.
  destruct (forallb is_ascii s); [| discriminate]. cbn [negb].
  destruct (Nat.odd (List.length s)); [discriminate |].
  intros H. apply a2b_hex_ok in H as [He Hd]. now rewrite He, Hd.
Qed.

Lemma unhexlify_malformed (s : pystr) :
  well_formed_hex s = false -> exists e, unhexlify s = Raise e.
Proof.
  intros H. destruct (unhexlify s) as [bs|e] eqn:Hu; [| now exists e].
  apply unhexlify_ok in Hu. congruence.
Qed.

(** What [convert_script] returns when [unhexlify] succeeds and when it
    raises. *)
Lemma convert_script_ok (s : pystr) (bs : bytes) :
  unhexlify s = Ok bs ->
  convert_script s =
  Ok (mkDecoded (decode_utf8_ignore bs)
        (map (fun b => if printable_byte b then b else 46) bs)
        (hexlify bs)).
Proof. intros H. unfold convert_script, convert_script_try. now rewrite H. Qed.

Lemma convert_script_raise (s : pystr) (e : exn) :
  unhexlify s = Raise e ->
  convert_script s =
  Ok (mkDecoded (py "Error: " ++ exn_str e) (py "Error") (py "Error")).
Proof. intros H. unfold convert_script, convert_script_try. now rewrite H. Qed.

(** Bytes below 128 decode to themselves. *)
Lemma decode_utf8_ascii (bs : bytes) :
  forallb is_ascii bs = true -> decode_utf8_ignore bs = bs.
Proof.
  unfold decode_utf8_ignore.
  induction bs as [|b bs IH]; [reflexivity |]. cbn [forallb].
  rewrite andb_true_iff. intros [Hb Hbs]. cbn [decode_from].
  unfold first_byte. unfold is_ascii in Hb. rewrite Hb. now rewrite IH.
Qed.

(** A three-byte character; then a truncated sequence, a stray FF, an
    overlong form, an encoded surrogate and a trailing first byte, all
    dropped, around the characters that are well encoded. *)
Example decode_utf8_euro : decode_utf8_ignore [226; 130; 172; 65] = [8364; 65].
Proof. reflexivity. Qed.

Example decode_utf8_drops_invalid :
  decode_utf8_ignore
    [226; 130; 65; 255; 195; 169; 192; 128; 237; 160; 128; 240; 159; 152; 128; 226]
  = [65; 233; 128512].
Proof. reflexivity. Qed.

(** ** The three views of a decoded script *)

(** C3: for every well-formed hexadecimal string (even length, characters in
    0-9a-fA-F), decoding succeeds and the hex view, which is the re-encoding
    of the recovered bytes, is the input in lower case. *)
Theorem hex_view_round_trip {L : StrLower} (s : pystr) :
  well_formed_hex s = true ->
  exists bs d,
    unhexlify s = Ok bs
    /\ convert_script s = Ok d
    /\ Hex d = hexlify bs
    /\ Hex d = lower s
    /\ lower s = map lower_cp s.
Proof.
  intros Hwf.
  destruct (unhexlify_well_formed s Hwf) as [bs [Hu [Hhex _]]].
  assert (Hlow : lower s = map lower_cp s).
  { apply lower_ascii, hex_digits_ascii.
    unfold well_formed_hex in Hwf. now apply andb_true_iff in Hwf. }
  exists bs, (mkDecoded (decode_utf8_ignore bs)
                (map (fun b => if printable_byte b then b else 46) bs)
                (hexlify bs)).
  rewrite (convert_script_ok s bs Hu). cbn [Hex].
  rewrite Hlow, Hhex. auto.
Qed.

Lemma hex_view_round_trip_witness :
  exists bs d,
    unhexlify (py "4A6f00fF") = Ok bs
    /\ convert_script (py "4A6f00fF") = Ok d
    /\ Hex d = hexlify bs
    /\ Hex d = @lower ascii_lower (py "4A6f00fF")
    /\ @lower ascii_lower (py "4A6f00fF") = map lower_cp (py "4A6f00fF").
Proof. apply (@hex_view_round_trip ascii_lower). reflexivity. Defined.

Example hex_view_4A6f00fF :
  option_map Hex (match convert_script (py "4A6f00fF") with Ok d => Some d | Raise _ => None end)
  = Some (py "4a6f00ff").
Proof. reflexivity. Qed.

(** C4: for every well-formed hexadecimal string, the ASCII view has one
    character per decoded byte, and the character for byte b is b itself
    when 32 <= b < 127 and the full stop otherwise. *)
Theorem ascii_view_per_byte (s : pystr) :
  well_formed_hex s = true ->
  exists bs d,
    unhexlify s = Ok bs
    /\ convert_script s = Ok d
    /\ List.length (ASCII d) = List.length bs
    /\ (2 * List.length (ASCII d) = List.length s)%nat
    /\ Forall2 (fun b c => (32 <= b < 127 /\ c = b)
                           \/ (~ 32 <= b < 127 /\ c = 46 (* '.' *)))
         bs (ASCII d).
Proof.
  intros Hwf.
  destruct (unhexlify_well_formed s Hwf) as [bs [Hu [_ Hlen]]].
  exists bs, (mkDecoded (decode_utf8_ignore bs)
                (map (fun b => if printable_byte b then b else 46) bs)
                (hexlify bs)).
  rewrite (convert_script_ok s bs Hu). cbn [ASCII]. rewrite length_map.
  repeat split; try assumption.
  clear. induction bs as [|b bs IH]; cbn [map]; constructor; [| exact IH].
  unfold printable_byte.
  cmp_cases; first [ left; split; [lia | reflexivity]
                   | right; split; [lia | reflexivity] ].
Qed.

Lemma ascii_view_per_byte_witness :
  exists bs d,
    unhexlify (py "410142ff7E7f") = Ok bs
    /\ convert_script (py "410142ff7E7f") = Ok d
    /\ List.length (ASCII d) = List.length bs
    /\ (2 * List.length (ASCII d) = List.length (py "410142ff7E7f"))%nat
    /\ Forall2 (fun b c => (32 <= b < 127 /\ c = b) \/ (~ 32 <= b < 127 /\ c = 46))
         bs (ASCII d).
Proof. apply ascii_view_per_byte. reflexivity. Defined.

Example ascii_view_410142ff7E7f :
  convert_script (py "410142ff7E7f")
  = Ok (mkDecoded [65; 1; 66; 126; 127] (py "A.B.~.") (py "410142ff7e7f")).
Proof. reflexivity. Qed.

(** ** Malformed input *)

(** C5 (as amended): convert_script returns a record for every input string
    and never propagates an exception; on malformed hex the UTF-8 view is
    Error: followed by the message of the failure, and the ASCII view and the
    hex view are both the literal Error.  For abc the message is Odd-length
    string, for zz it is Non-hexadecimal digit found. *)
Theorem malformed_hex_yields_error_record :
  (forall s, exists d, convert_script s = Ok d)
  /\ (forall s, well_formed_hex s = false ->
        exists e,
          unhexlify s = Raise e
          /\ convert_script s
             = Ok (mkDecoded (py "Error: " ++ exn_str e) (py "Error") (py "Error"))
          /\ carries_diagnostic (py "Error: " ++ exn_str e) e)
  /\ convert_script (py "abc")
     = Ok (mkDecoded (py "Error: Odd-length string") (py "Error") (py "Error"))
  /\ convert_script (py "zz")
     = Ok (mkDecoded (py "Error: Non-hexadecimal digit found") (py "Error") (py "Error")).
Proof.
  split; [| split; [| split; reflexivity]].
  - intros s. destruct (unhexlify s) as [bs|e] eqn:Hu.
    + eexists. exact (convert_script_ok s bs Hu).
    + eexists. exact (convert_script_raise s e Hu).
  - intros s Hs. destruct (unhexlify_malformed s Hs) as [e He].
    exists e. split; [exact He |]. split; [now apply convert_script_raise |].
    split; [reflexivity |].
    apply contains_spec. exists (py "Error: "), []. now rewrite app_nil_r.
Qed.

Lemma malformed_hex_yields_error_record_witness :
  exists e,
    unhexlify (py "zz") = Raise e
    /\ convert_script (py "zz")
       = Ok (mkDecoded (py "Error: " ++ exn_str e) (py "Error") (py "Error"))
    /\ carries_diagnostic (py "Error: " ++ exn_str e) e.
Proof.
  apply (proj1 (proj2 malformed_hex_yields_error_record) (py "zz")).
  reflexivity.
Defined.

(** A string with a character outside ASCII is refused before its length is
    looked at, and an odd length before its digits. *)
Example convert_script_errors :
  option_map UTF8 (match convert_script [233] with Ok d => Some d | Raise _ => None end)
  = Some (py "Error: string argument should contain only ASCII characters")
  /\ option_map UTF8 (match convert_script (py "zzz") with Ok d => Some d | Raise _ => None end)
     = Some (py "Error: Odd-length string").
Proof. split; reflexivity. Qed.

(** C5 (as stated) fails: for abc the ASCII view is the bare literal Error,
    the same as the hex view, and does not contain the message of the
    failure. *)
Lemma error_fallback_as_stated_fails : ~ error_fallback_as_stated (py "abc").
Proof.
  intros [e [d [Hu [Hc [_ [[_ Ha] _]]]]]].
  vm_compute in Hu. injection Hu as <-.
  vm_compute in Hc. injection Hc as <-.
  vm_compute in Ha. discriminate Ha.
Qed.

(** ** The empty script *)

(** C10: the empty string is well formed, unhexlify returns no bytes for it,
    and convert_script returns the record whose three views are the empty
    string; no view is an error marker. *)
Theorem convert_script_empty :
  well_formed_hex (py "") = true
  /\ unhexlify (py "") = Ok []
  /\ convert_script (py "") = Ok (mkDecoded (py "") (py "") (py ""))
  /\ py "" = []
  /\ py "" <> py "Error".
Proof. repeat split. discriminate. Qed.

(** * Further properties of the code *)

(** ** unhexlify and hexlify *)

Lemma digit_value_lt (c v : N) : digit_value c = Some v -> v < 16.
Proof.
  unfold digit_value. cmp_cases; intros Hv; try discriminate Hv;
    injection Hv as <-; lia.
Qed.

Lemma a2b_hex_bytes (s : pystr) (bs : bytes) :
  a2b_hex s = Ok bs ->
  Forall (fun b => b < 256) bs /\ (List.length s = 2 * List.length bs)%nat.
Proof.
  revert bs. induction s as [| c | c1 c2 s IH] using pair_ind; intros bs.
  - intros [= <-]. split; [constructor | reflexivity].
  - discriminate.
  - cbn [a2b_hex].
    destruct (digit_value c1) as [top|] eqn:H1; [| discriminate].
    destruct (digit_value c2) as [bot|] eqn:H2; [| discriminate].
    destruct (a2b_hex s) as [bs'|e] eqn:Hs; [| discriminate].
    cbn [bind]. intros [= <-]. destruct (IH bs' eq_refl) as [Hb Hl].
    apply digit_value_lt in H1, H2. split.
    + constructor; [lia | exact Hb].
    + cbn [List.length]. lia.
Qed.

Lemma unhexlify_bytes (s : pystr) (bs : bytes) :
  unhexlify s = Ok bs ->
  Forall (fun b => b < 256) bs /\ (List.length s = 2 * List.length bs)%nat.
Proof.
  unfold unhexlify.
  destruct (negb (forallb is_ascii s)); [discriminate |].
  destruct (Nat.odd (List.length s)); [discriminate |].
  apply a2b_hex_bytes.
Qed.

(** What [unhexlify] returns is a string of bytes (each below 256), one for
    every two characters of the script. *)
Theorem unhexlify_bytes_in_range (s : pystr) (bs : bytes) :
  unhexlify s = Ok bs ->
  Forall (fun b => b < 256) bs /\ (List.length s = 2 * List.length bs)%nat.
Proof. apply unhexlify_bytes. Qed.

Lemma unhexlify_bytes_in_range_witness :
  Forall (fun b => b < 256) [65; 255] /\ (List.length (py "41fF") = 2 * 2)%nat.
Proof. apply (unhexlify_bytes_in_range (py "41fF") [65; 255]). reflexivity. Defined.

Lemma digit_value_hex_digit (v : N) : v < 16 -> digit_value (hex_digit v) = Some v.
Proof.
  intros Hv. unfold hex_digit. destruct (N.ltb_spec v 10) as [Hlt | Hge].
  - unfold digit_value. cmp_cases; first [lia | f_equal; lia].
  - unfold digit_value. cmp_cases; first [lia | f_equal; lia].
Qed.

Lemma hex_digit_ascii (v : N) : v < 16 -> is_ascii (hex_digit v) = true.
Proof.
  intros Hv. unfold hex_digit, is_ascii.
  destruct (N.ltb_spec v 10); apply N.ltb_lt; lia.
Qed.

Lemma byte_split (b : N) : b < 256 -> b / 16 < 16 /\ b mod 16 < 16 /\ b / 16 * 16 + b mod 16 = b.
Proof.
  intros Hb. split; [| split].
  - apply N.Div0.div_lt_upper_bound. lia.
  - apply N.mod_lt. lia.
  - rewrite (N.div_mod b 16) at 3 by lia. lia.
Qed.

Lemma hexlify_ascii (bs : bytes) :
  Forall (fun b => b < 256) bs -> forallb is_ascii (hexlify bs) = true.
Proof.
  induction 1 as [| b bs Hb _ IH]; [reflexivity |].
  destruct (byte_split b Hb) as [Hh [Hl _]].
  unfold hexlify. cbn [flat_map app forallb]. fold (hexlify bs).
  now rewrite !hex_digit_ascii, IH.
Qed.

Lemma hexlify_length (bs : bytes) : (List.length (hexlify bs) = 2 * List.length bs)%nat.
Proof.
  induction bs as [| b bs IH]; [reflexivity |].
  unfold hexlify. cbn [flat_map app List.length]. fold (hexlify bs). lia.
Qed.

Lemma a2b_hex_hexlify (bs : bytes) :
  Forall (fun b => b < 256) bs -> a2b_hex (hexlify bs) = Ok bs.
Proof.
  induction 1 as [| b bs Hb _ IH]; [reflexivity |].
  destruct (byte_split b Hb) as [Hh [Hl Heq]].
  unfold hexlify. cbn [flat_map app a2b_hex]. fold (hexlify bs).
  rewrite !digit_value_hex_digit by assumption. rewrite IH. cbn [bind].
  now rewrite Heq.
Qed.

(** Decoding the hexadecimal text of a byte string gives the bytes back, and
    the hex view of the decoded record is that text. *)
Theorem unhexlify_hexlify (bs : bytes) :
  Forall (fun b => b < 256) bs ->
  unhexlify (hexlify bs) = Ok bs
  /\ exists d, convert_script (hexlify bs) = Ok d /\ Hex d = hexlify bs.
Proof.
  intros Hb.
  assert (Hu : unhexlify (hexlify bs) = Ok bs).
  { unfold unhexlify. rewrite (hexlify_ascii bs Hb). cbn [negb].
    rewrite <- Nat.negb_even, hexlify_length.
    rewrite Nat.even_mul. cbn [Nat.even orb negb].
    now apply a2b_hex_hexlify. }
  split; [exact Hu |].
  eexists. split; [exact (convert_script_ok _ _ Hu) | reflexivity].
Qed.

Lemma unhexlify_hexlify_witness :
  unhexlify (hexlify [0; 77; 255]) = Ok [0; 77; 255]
  /\ exists d, convert_script (hexlify [0; 77; 255]) = Ok d
               /\ Hex d = hexlify [0; 77; 255].
Proof. apply unhexlify_hexlify. repeat constructor. Defined.

(** ** The case of the hexadecimal letters *)

Lemma digit_value_lower (c : codepoint) : digit_value (lower_cp c) = digit_value c.
Proof.
  unfold lower_cp.
  destruct (N.leb_spec 65 c) as [H1 | H1]; destruct (N.leb_spec c 90) as [H2 | H2];
    cbn [andb]; try reflexivity.
  unfold digit_value. cmp_cases; first [lia | f_equal; lia | reflexivity].
Qed.

Lemma is_ascii_lower (c : codepoint) : is_ascii (lower_cp c) = is_ascii c.
Proof.
  unfold lower_cp, is_ascii.
  destruct (N.leb_spec 65 c) as [H1 | H1]; destruct (N.leb_spec c 90) as [H2 | H2];
    cbn [andb]; try reflexivity.
  destruct (N.ltb_spec (c + 32) 128), (N.ltb_spec c 128); first [reflexivity | lia].
Qed.

Lemma a2b_hex_lower (s : pystr) : a2b_hex (map lower_cp s) = a2b_hex s.
Proof.
  induction s as [| c | c1 c2 s IH] using pair_ind; try reflexivity.
  cbn [map a2b_hex]. now rewrite !digit_value_lower, IH.
Qed.

Lemma forallb_ascii_lower (s : pystr) :
  forallb is_ascii (map lower_cp s) = forallb is_ascii s.
Proof.
  induction s as [| c s IH]; [reflexivity |].
  cbn [map forallb]. now rewrite is_ascii_lower, IH.
Qed.

Lemma unhexlify_lower (s : pystr) : unhexlify (map lower_cp s) = unhexlify s.
Proof.
  unfold unhexlify. now rewrite length_map, a2b_hex_lower, forallb_ascii_lower.
Qed.

Lemma convert_script_lower (s : pystr) :
  convert_script (map lower_cp s) = convert_script s.
Proof. unfold convert_script, convert_script_try. now rewrite unhexlify_lower. Qed.

(** Two scripts that differ only in the case of ASCII letters decode to the
    same record, error records included; the record of a script is the
    record of its lower-cased form. *)
Theorem convert_script_ignores_case {L : StrLower} (s1 s2 : pystr) :
  map lower_cp s1 = map lower_cp s2 ->
  convert_script s1 = convert_script s2
  /\ (forallb is_ascii s1 = true -> convert_script (lower s1) = convert_script s1).
Proof.
  intros H. split.
  - now rewrite <- (convert_script_lower s1), H, convert_script_lower.
  - intros Ha. rewrite (lower_ascii s1 Ha). apply convert_script_lower.
Qed.

Lemma convert_script_ignores_case_witness :
  convert_script (py "4a6F") = convert_script (py "4A6f")
  /\ (forallb is_ascii (py "4a6F") = true ->
      convert_script (@lower ascii_lower (py "4a6F")) = convert_script (py "4a6F")).
Proof. apply (@convert_script_ignores_case ascii_lower). reflexivity. Defined.

(** Decoding the hex view of a decoded record gives the same record: for a
    well-formed script the hex view is again a well-formed script for the
    same bytes. *)
Theorem convert_script_of_hex_view (s : pystr) (d : DecodedScript) :
  well_formed_hex s = true ->
  convert_script s = Ok d ->
  well_formed_hex (Hex d) = true /\ convert_script (Hex d) = Ok d.
Proof.
  intros Hwf Hd.
  destruct (unhexlify_well_formed s Hwf) as [bs [Hu [Hhex _]]].
  rewrite (convert_script_ok s bs Hu) in Hd. injection Hd as <-. cbn [Hex].
  rewrite Hhex.
  assert (Hc : convert_script (map lower_cp s) = convert_script s)
    by apply convert_script_lower.
  rewrite (convert_script_ok s bs Hu) in Hc. rewrite Hhex in Hc.
  split; [| exact Hc].
  apply (unhexlify_ok _ bs). rewrite unhexlify_lower. exact Hu.
Qed.

Lemma convert_script_of_hex_view_witness :
  well_formed_hex (Hex row_A01B) = true /\ convert_script (Hex row_A01B) = Ok row_A01B.
Proof.
  apply (convert_script_of_hex_view (py "410142") row_A01B); reflexivity.
Defined.

(** ** The three failures of unhexlify *)

Lemma a2b_hex_even_raise (s : pystr) (e : exn) :
  Nat.even (List.length s) = true -> a2b_hex s = Raise e -> e = non_hex_error.
Proof.
  induction s as [| c | c1 c2 s IH] using pair_ind.
  - discriminate.
  - discriminate.
  - cbn [List.length Nat.even a2b_hex]. intros He.
    destruct (digit_value c1); [| intros [= <-]; reflexivity].
    destruct (digit_value c2); [| intros [= <-]; reflexivity].
    destruct (a2b_hex s) as [bs | e'] eqn:Hs; [discriminate |].
    cbn [bind]. intros [= <-]. now apply IH.
Qed.

(** On a script that is not well formed the UTF-8 view names the first check
    that failed, in this order: a character outside ASCII, an odd length, a
    character that is not a hexadecimal digit.  The two other views are the
    literal Error. *)
Theorem convert_script_error_message (s : pystr) :
  well_formed_hex s = false ->
  convert_script s =
  Ok (mkDecoded
        (if negb (forallb is_ascii s) then
           py "Error: string argument should contain only ASCII characters"
         else if Nat.odd (List.length s) then py "Error: Odd-length string"
         else py "Error: Non-hexadecimal digit found")
        (py "Error") (py "Error")).
Proof.
  intros Hwf. destruct (unhexlify_malformed s Hwf) as [e He].
  rewrite (convert_script_raise s e He). revert He. unfold unhexlify.
  destruct (negb (forallb is_ascii s)); [intros [= <-]; reflexivity |].
  destruct (Nat.odd (List.length s)) eqn:Ho; [intros [= <-]; reflexivity |].
  intros He. apply a2b_hex_even_raise in He; [now subst e |].
  now rewrite <- Nat.negb_odd, Ho.
Qed.

Lemma convert_script_error_message_witness :
  convert_script (py "4g1") =
  Ok (mkDecoded (py "Error: Odd-length string") (py "Error") (py "Error")).
Proof. apply (convert_script_error_message (py "4g1")). reflexivity. Defined.

(** ** The UTF-8 view *)

Lemma decode_from_length (st : option pending) (bs : bytes) :
  (List.length (decode_from st bs) <= List.length bs)%nat.
Proof.
  revert st. induction bs as [| b bs IH]; intros st; [reflexivity |].
  cbn [decode_from].
  destruct st as [p |]; [destruct (next_byte p b) |]; try destruct (first_byte b);
    cbn [List.length];
    match goal with |- context [decode_from ?x bs] => specialize (IH x) end; lia.
Qed.

(** The UTF-8 view of a well-formed script has at most one character per
    byte: it is never longer than the ASCII view. *)
Theorem utf8_view_not_longer (s : pystr) (d : DecodedScript) :
  well_formed_hex s = true ->
  convert_script s = Ok d ->
  (List.length (UTF8 d) <= List.length (ASCII d))%nat.
Proof.
  intros Hwf Hd. destruct (unhexlify_well_formed s Hwf) as [bs [Hu _]].
  rewrite (convert_script_ok s bs Hu) in Hd. injection Hd as <-.
  cbn [UTF8 ASCII]. rewrite length_map. apply decode_from_length.
Qed.

Lemma utf8_view_not_longer_witness :
  (List.length (UTF8 row_A01B) <= List.length (ASCII row_A01B))%nat.
Proof. apply (utf8_view_not_longer (py "410142") row_A01B); reflexivity. Defined.

Ltac bool_hyps :=
  repeat match goal with
         | H : _ && _ = true |- _ => apply andb_true_iff in H; destruct H
         | H : _ && _ = false |- _ => apply andb_false_iff in H
         | H : (_ <=? _) = true |- _ => apply N.leb_le in H
         | H : (_ <=? _) = false |- _ => apply N.leb_gt in H
         | H : (_ <? _) = true |- _ => apply N.ltb_lt in H
         | H : (_ <? _) = false |- _ => apply N.ltb_ge in H
         | H : (_ =? _) = true |- _ => apply N.eqb_eq in H
         | H : (_ =? _) = false |- _ => apply N.eqb_neq in H
         end.

Ltac if_cases :=
  repeat match goal with
         | |- context [if ?c then _ else _] => destruct c eqn:?
         end.

Ltac mod_lia := zify; Z.to_euclidean_division_equations; lia.

Lemma acc_value (a b : N) :
  N.lor (N.shiftl a 6) (N.land b 63) = a * 64 + b mod 64.
Proof.
  change 63 with (N.ones 6). rewrite N.land_ones, N.shiftl_mul_pow2.
  rewrite <- N.lxor_lor, <- N.add_nocarry_lxor; try reflexivity.
  all: apply N.bits_inj; intros n; rewrite N.land_spec, N.bits_0;
    rewrite <- N.shiftl_mul_pow2;
    destruct (N.lt_ge_cases n 6) as [H | H];
    [ rewrite N.shiftl_spec_low by exact H; reflexivity
    | rewrite N.mod_pow2_bits_high by exact H; apply andb_false_r ].
Qed.

Lemma first_byte_emit (b c : N) : first_byte b = Emit c -> c = b /\ b < 128.
Proof.
  unfold first_byte. if_cases; try discriminate.
  intros [= <-]. bool_hyps. auto.
Qed.

Lemma first_byte_high (b : N) : first_byte b <> Emit b -> 128 <= b.
Proof.
  unfold first_byte. destruct (b <? 128) eqn:Hb; [congruence |].
  intros _. now bool_hyps.
Qed.

Lemma first_byte_cont (b : N) (p : pending) :
  first_byte b = Cont p -> pending_ok p.
Proof.
  unfold first_byte, pending_ok. if_cases; try discriminate; intros [= <-];
    cbn [next_lo next_hi bits due Nat.leb]; bool_hyps; subst;
    (repeat split; [lia | lia |]);
    try (vm_compute; discriminate).
  - change 31 with (N.ones 5). rewrite N.land_ones. change (2 ^ 5) with 32. mod_lia.
  - change 15 with (N.ones 4). rewrite N.land_ones. change (2 ^ 4) with 16. mod_lia.
  - change 7 with (N.ones 3). rewrite N.land_ones. change (2 ^ 3) with 8. mod_lia.
Qed.

Lemma next_byte_high (p : pending) (b : N) :
  pending_ok p -> next_byte p b <> Bad -> 128 <= b.
Proof.
  intros [Hlo _]. unfold next_byte.
  destruct ((next_lo p <=? b) && (b <=? next_hi p)) eqn:Hr; [| congruence].
  intros _. bool_hyps. lia.
Qed.

Lemma next_byte_emit (p : pending) (b c : N) :
  pending_ok p -> next_byte p b = Emit c -> 128 <= c.
Proof.
  intros [Hlo [Hhi Hm]]. unfold next_byte.
  destruct ((next_lo p <=? b) && (b <=? next_hi p)) eqn:Hr; [| discriminate].
  bool_hyps. cbv zeta. rewrite acc_value.
  destruct (due p) as [| [| n]]; try discriminate; intros [= <-];
    cbn [Nat.leb] in Hm; mod_lia.
Qed.

Lemma next_byte_cont (p p' : pending) (b : N) :
  pending_ok p -> next_byte p b = Cont p' -> pending_ok p'.
Proof.
  intros [Hlo [Hhi Hm]]. unfold next_byte.
  destruct ((next_lo p <=? b) && (b <=? next_hi p)) eqn:Hr; [| discriminate].
  bool_hyps. cbv zeta. rewrite acc_value.
  destruct (due p) as [| [| n]]; try discriminate; intros [= <-].
  unfold pending_ok. cbn [next_lo next_hi bits due].
  cbn [Nat.leb] in Hm. repeat split; try lia.
  destruct (S n <=? 1)%nat; mod_lia.
Qed.

Lemma filter_ascii_high (b : N) (l : list N) :
  128 <= b -> filter is_ascii (b :: l) = filter is_ascii l.
Proof.
  intros Hb. cbn [filter]. unfold is_ascii at 1.
  destruct (N.ltb_spec b 128); [lia | reflexivity].
Qed.

Lemma filter_ascii_low (b : N) (l : list N) :
  b < 128 -> filter is_ascii (b :: l) = b :: filter is_ascii l.
Proof.
  intros Hb. cbn [filter]. unfold is_ascii at 1.
  destruct (N.ltb_spec b 128); [reflexivity | lia].
Qed.

Lemma decode_from_ascii_part (bs : bytes) :
  forall st,
    match st with Some p => pending_ok p | None => True end ->
    filter is_ascii (decode_from st bs) = filter is_ascii bs.
Proof.
  induction bs as [| b bs IH]; intros st Hst; [reflexivity |].
  assert (Hfirst :
            filter is_ascii
              match first_byte b with
              | Emit c => c :: decode_from None bs
              | Cont p => decode_from (Some p) bs
              | Bad => decode_from None bs
              end
            = filter is_ascii (b :: bs)).
  { destruct (first_byte b) as [c | p |] eqn:Hf.
    - apply first_byte_emit in Hf as [-> Hb].
      rewrite !filter_ascii_low by exact Hb. now rewrite (IH None).
    - rewrite filter_ascii_high by (apply first_byte_high; congruence).
      apply (IH (Some p)). now apply first_byte_cont in Hf.
    - rewrite filter_ascii_high by (apply first_byte_high; congruence).
      now apply (IH None). }
  cbn [decode_from]. destruct st as [p |]; [| exact Hfirst].
  destruct (next_byte p b) as [c | p' |] eqn:Hn; [| | exact Hfirst].
  - rewrite (filter_ascii_high b) by (apply (next_byte_high p); [exact Hst | congruence]).
    rewrite filter_ascii_high by (now apply (next_byte_emit p b)).
    now apply (IH None).
  - rewrite (filter_ascii_high b) by (apply (next_byte_high p); [exact Hst | congruence]).
    apply (IH (Some p')). now apply (next_byte_cont p p' b).
Qed.

(** The UTF-8 view keeps every byte below 128 of a well-formed script, in
    order, as the character of that code; every other character of the view
    has a code of 128 or more.  No ASCII text of the script is lost or made
    up by the decoding. *)
Theorem utf8_view_keeps_ascii (s : pystr) (bs : bytes) (d : DecodedScript) :
  unhexlify s = Ok bs ->
  convert_script s = Ok d ->
  filter is_ascii (UTF8 d) = filter is_ascii bs.
Proof.
  intros Hu Hd. rewrite (convert_script_ok s bs Hu) in Hd. injection Hd as <-.
  cbn [UTF8]. now apply decode_from_ascii_part.
Qed.

Lemma utf8_view_keeps_ascii_witness :
  filter is_ascii (UTF8 (mkDecoded [80; 111; 111; 108; 233] (py "Po.ol..") (py "506fff6f6cc3a9")))
  = filter is_ascii [80; 111; 255; 111; 108; 195; 169].
Proof.
  apply (utf8_view_keeps_ascii (py "506fff6f6cc3a9")); reflexivity.
Defined.

(** ** Scripts of printable bytes *)

Lemma printable_is_ascii (b : N) : printable_byte b = true -> is_ascii b = true.
Proof.
  unfold printable_byte, is_ascii. intros H. bool_hyps. apply N.ltb_lt. lia.
Qed.

Lemma ascii_view_printable (bs : bytes) :
  forallb printable_byte bs = true ->
  map (fun b => if printable_byte b then b else 46) bs = bs.
Proof.
  induction bs as [| b bs IH]; [reflexivity |]. cbn [forallb map].
  intros H. apply andb_true_iff in H as [Hb Hbs]. now rewrite Hb, IH.
Qed.

Lemma process_row_same_views {L : StrLower} (row : DecodedScript) (tags : pool_dict) :
  UTF8 row = ASCII row ->
  snd (process_row row tags) = match_loop (UTF8 row) tags.
Proof.
  intros H. rewrite process_row_cases, <- H, (match_loop_first_match (UTF8 row)).
  destruct (first_match (UTF8 row) tags) as [[k p] |]; [| reflexivity].
  destruct (is_empty (name p)); reflexivity.
Qed.

(** When every byte of the script is printable (32 to 126), the UTF-8 view
    and the ASCII view are both the bytes read as characters, and the row is
    attributed as a single search of that text would: the second search
    cannot change the result. *)
Theorem printable_script_views_agree
  {L : StrLower} (s : pystr) (bs : bytes) (d : DecodedScript) (tags : pool_dict) :
  unhexlify s = Ok bs ->
  forallb printable_byte bs = true ->
  convert_script s = Ok d ->
  UTF8 d = bs /\ ASCII d = bs
  /\ snd (process_row d tags) = match_pool_in_columns (VStr bs) tags.
Proof.
  intros Hu Hp Hd. rewrite (convert_script_ok s bs Hu) in Hd. injection Hd as <-.
  assert (H1 : decode_utf8_ignore bs = bs).
  { apply decode_utf8_ascii. rewrite forallb_forall in *.
    intros b Hb. apply printable_is_ascii. auto. }
  assert (H2 : map (fun b => if printable_byte b then b else 46) bs = bs)
    by now apply ascii_view_printable.
  cbn [UTF8 ASCII]. rewrite H1, H2. repeat split.
  rewrite process_row_same_views; cbn [UTF8 ASCII]; now rewrite ?H1, ?H2.
Qed.

Lemma printable_script_views_agree_witness :
  UTF8 (mkDecoded (py "F2Pool") (py "F2Pool") (py "4632506f6f6c")) = py "F2Pool"
  /\ ASCII (mkDecoded (py "F2Pool") (py "F2Pool") (py "4632506f6f6c")) = py "F2Pool"
  /\ snd (@process_row ascii_lower
            (mkDecoded (py "F2Pool") (py "F2Pool") (py "4632506f6f6c")) tags_two)
     = @match_pool_in_columns ascii_lower (VStr (py "F2Pool")) tags_two.
Proof.
  apply (@printable_script_views_agree ascii_lower (py "4632506f6f6c")); reflexivity.
Defined.

(** ** What match_pool_in_columns can return *)

(** The pair returned is the pair of empty strings, when no tag matches, or
    the name and link of a tag of the tag set that matches the candidate: the
    matcher never returns a name or link that is not configured. *)
Theorem match_result_is_configured
  {L : StrLower} (v : pyval) (tags : pool_dict) (n l : pystr) :
  match_pool_in_columns v tags = (n, l) ->
  (n = [] /\ l = [] /\ Forall (fun kp => tag_matches (coerce v) (snd kp) = false) tags)
  \/ (exists k p, In (k, p) tags /\ tag_matches (coerce v) p = true
                  /\ n = name p /\ l = link p).
Proof.
  unfold match_pool_in_columns. rewrite match_loop_first_match.
  destruct (first_match (coerce v) tags) as [[k p] |] eqn:Hf.
  - intros [= <- <-]. right. exists k, p.
    apply find_some in Hf as [Hin Hm]. auto.
  - intros [= <- <-]. left. repeat split. now apply find_none_iff.
Qed.

Lemma match_result_is_configured_witness :
  (py "F2Pool" = [] /\ link tag_f2pool = []
   /\ Forall (fun kp => @tag_matches ascii_lower (coerce (VStr (py "by f2pool"))) (snd kp)
                        = false) tags_two)
  \/ (exists k p, In (k, p) tags_two
                  /\ @tag_matches ascii_lower (coerce (VStr (py "by f2pool"))) p = true
                  /\ py "F2Pool" = name p /\ link tag_f2pool = link p).
Proof.
  apply (@match_result_is_configured ascii_lower (VStr (py "by f2pool")) tags_two).
  reflexivity.
Defined.

(** The keys of the configuration play no part: two tag sets with the same
    entries in the same order give the same result. *)
Theorem match_ignores_keys {L : StrLower} (v : pyval) (tags tags' : pool_dict) :
  map snd tags = map snd tags' ->
  match_pool_in_columns v tags = match_pool_in_columns v tags'.
Proof.
  unfold match_pool_in_columns. generalize (coerce v) as text. intros text.
  revert tags'. induction tags as [| [k p] tags IH]; intros [| [k' p'] tags'];
    cbn [map snd]; try discriminate; [reflexivity |].
  intros [= <- H]. cbn [match_loop]. now rewrite (IH tags' H).
Qed.

Lemma match_ignores_keys_witness :
  @match_pool_in_columns ascii_lower (VStr (py "by f2pool")) tags_two
  = @match_pool_in_columns ascii_lower (VStr (py "by f2pool"))
      (map (fun kp => (py "key", snd kp)) tags_two).
Proof. apply (@match_ignores_keys ascii_lower). reflexivity. Defined.

(** Reordering the configuration changes nothing when the candidate is not
    ambiguous, that is when all the tags that match it have the same name and
    link. *)
Theorem match_order_irrelevant_when_unambiguous
  {L : StrLower} (v : pyval) (tags tags' : pool_dict) :
  Permutation tags tags' ->
  (forall kp1 kp2,
      In kp1 tags -> In kp2 tags ->
      tag_matches (coerce v) (snd kp1) = true ->
      tag_matches (coerce v) (snd kp2) = true ->
      name (snd kp1) = name (snd kp2) /\ link (snd kp1) = link (snd kp2)) ->
  match_pool_in_columns v tags = match_pool_in_columns v tags'.
Proof.
  intros Hperm Hun. unfold match_pool_in_columns.
  rewrite !match_loop_first_match.
  destruct (first_match (coerce v) tags) as [[k p] |] eqn:Hf;
    destruct (first_match (coerce v) tags') as [[k' p'] |] eqn:Hf'.
  - apply find_some in Hf as [Hin Hm]. apply find_some in Hf' as [Hin' Hm'].
    apply (Permutation_in _ (Permutation_sym Hperm)) in Hin'.
    destruct (Hun _ _ Hin Hin' Hm Hm') as [Hn Hl]. cbn [snd] in Hn, Hl.
    now rewrite Hn, Hl.
  - apply find_some in Hf as [Hin Hm].
    apply (Permutation_in _ Hperm) in Hin.
    unfold first_match in Hf'. rewrite find_none_iff, Forall_forall in Hf'.
    specialize (Hf' _ Hin). cbn beta in Hf'. congruence.
  - apply find_some in Hf' as [Hin' Hm'].
    apply (Permutation_in _ (Permutation_sym Hperm)) in Hin'.
    unfold first_match in Hf. rewrite find_none_iff, Forall_forall in Hf.
    specialize (Hf _ Hin'). cbn beta in Hf. congruence.
  - reflexivity.
Qed.

Lemma match_order_irrelevant_when_unambiguous_witness :
  @match_pool_in_columns ascii_lower (VStr (py "by f2pool")) tags_two
  = @match_pool_in_columns ascii_lower (VStr (py "by f2pool")) (rev tags_two).
Proof.
  apply (@match_order_irrelevant_when_unambiguous ascii_lower).
  - apply Permutation_rev.
  - intros kp1 kp2 [<- | [<- | []]] [<- | [<- | []]];
      first [ split; reflexivity | discriminate ].
Defined.

(** Tags added at the end of the configuration are looked at only when no
    earlier tag matches: a candidate that an earlier tag matches keeps its
    result, and otherwise the result is that of the added tags alone. *)
Theorem match_appended_tags {L : StrLower} (v : pyval) (tags more : pool_dict) :
  ((exists kp, In kp tags /\ tag_matches (coerce v) (snd kp) = true) ->
   match_pool_in_columns v (tags ++ more) = match_pool_in_columns v tags)
  /\ (Forall (fun kp => tag_matches (coerce v) (snd kp) = false) tags ->
      match_pool_in_columns v (tags ++ more) = match_pool_in_columns v more).
Proof.
  unfold match_pool_in_columns. generalize (coerce v) as text. intros text.
  induction tags as [| [k p] tags [IH1 IH2]]; cbn [app match_loop].
  - split; [intros [kp [[] _]] | reflexivity].
  - destruct (tag_matches text p) eqn:Hp.
    + split; [reflexivity | intros H; inversion H; cbn [snd] in *; congruence].
    + split.
      * intros [kp [[<- | Hin] Hm]]; [cbn [snd] in Hm; congruence |].
        apply IH1. now exists kp.
      * intros H. inversion H. now apply IH2.
Qed.

Lemma malformed_or_ok (s : pystr) : exists d, convert_script s = Ok d.
Proof.
  destruct (unhexlify s) as [bs | e] eqn:Hu; eexists;
    [exact (convert_script_ok s bs Hu) | exact (convert_script_raise s e Hu)].
Qed.

(** ** Rows whose script is malformed *)

(** A row whose script is not well formed is matched like any other, against
    the error text: when some tag matches the word Error, such a row is
    attributed to a tag. *)
Theorem malformed_script_is_still_matched
  {L : StrLower} (s : pystr) (tags : pool_dict) (k : pystr) (p : pool) :
  well_formed_hex s = false ->
  names_nonempty tags ->
  In (k, p) tags ->
  tag_matches (py "Error") p = true ->
  exists k' p',
    In (k', p') tags /\ name p' <> []
    /\ attribute_script s tags = Ok (name p', link p').
Proof.
  intros Hwf Hn Hin Hm.
  destruct (unhexlify_malformed s Hwf) as [e He].
  unfold attribute_script. rewrite (convert_script_raise s e He). cbn [bind].
  rewrite process_row_cases. cbn [UTF8 ASCII].
  assert (Hascii : exists k' p', first_match (py "Error") tags = Some (k', p')).
  { destruct (first_match (py "Error") tags) as [[k' p'] |] eqn:Hf; [now exists k', p' |].
    unfold first_match in Hf. rewrite find_none_iff, Forall_forall in Hf.
    specialize (Hf _ Hin). cbn [snd] in Hf. congruence. }
  destruct (first_match (py "Error: " ++ exn_str e) tags) as [[k1 p1] |] eqn:Hu.
  - assert (Hp1 : name p1 <> []) by (eapply first_match_nonempty; eassumption).
    exists k1, p1. apply find_some in Hu as [Hin1 _].
    destruct (name p1) eqn:Hname; [congruence |]. cbn [is_empty snd].
    rewrite <- Hname. repeat split; auto. congruence.
  - destruct Hascii as [k' [p' Hf]]. cbn [snd].
    rewrite match_loop_first_match, Hf.
    assert (Hp' : name p' <> []) by (eapply first_match_nonempty; eassumption).
    apply find_some in Hf as [Hin' _]. exists k', p'. auto.
Qed.

Lemma malformed_script_is_still_matched_witness :
  exists k' p',
    In (k', p') [(py "k", mkPool (py "ERR") (py "l"))] /\ name p' <> []
    /\ @attribute_script ascii_lower (py "zz") [(py "k", mkPool (py "ERR") (py "l"))]
       = Ok (name p', link p').
Proof.
  apply (@malformed_script_is_still_matched ascii_lower (py "zz") _ (py "k")
           (mkPool (py "ERR") (py "l"))).
  - reflexivity.
  - repeat constructor. discriminate.
  - left. reflexivity.
  - reflexivity.
Defined.

(** ** Sanitizing the decoded views and the exported row *)

Lemma sanitize_str_fixed (s : pystr) :
  forallb in_x20_x7E s = true -> sanitize_string (VStr s) = VStr s.
Proof. intros H. rewrite sanitize_str_filter. now rewrite filter_all. Qed.

Lemma hex_digit_in_range (v : N) : v < 16 -> in_x20_x7E (hex_digit v) = true.
Proof.
  intros Hv. unfold hex_digit, in_x20_x7E.
  destruct (N.ltb_spec v 10); apply andb_true_iff; split; apply N.leb_le; lia.
Qed.

Lemma hexlify_in_range (bs : bytes) :
  Forall (fun b => b < 256) bs -> forallb in_x20_x7E (hexlify bs) = true.
Proof.
  induction 1 as [| b bs Hb _ IH]; [reflexivity |].
  destruct (byte_split b Hb) as [Hh [Hl _]].
  unfold hexlify. cbn [flat_map app forallb]. fold (hexlify bs).
  now rewrite !hex_digit_in_range, IH.
Qed.

Lemma ascii_view_in_range (bs : bytes) :
  forallb in_x20_x7E (map (fun b => if printable_byte b then b else 46) bs) = true.
Proof.
  induction bs as [| b bs IH]; [reflexivity |]. cbn [map forallb]. rewrite IH.
  destruct (printable_byte b) eqn:Hb; [| reflexivity].
  unfold printable_byte in Hb. unfold in_x20_x7E. bool_hyps.
  rewrite andb_true_r. apply andb_true_iff; split; apply N.leb_le; lia.
Qed.

(** Whatever the script, the ASCII view and the hex view of the decoded
    record hold printable characters only, so sanitizing leaves them as they
    are. *)
Theorem sanitize_keeps_ascii_and_hex_views (s : pystr) (d : DecodedScript) :
  convert_script s = Ok d ->
  sanitize_string (VStr (ASCII d)) = VStr (ASCII d)
  /\ sanitize_string (VStr (Hex d)) = VStr (Hex d).
Proof.
  destruct (unhexlify s) as [bs | e] eqn:Hu.
  - rewrite (convert_script_ok s bs Hu). intros [= <-]. cbn [ASCII Hex].
    destruct (unhexlify_bytes s bs Hu) as [Hb _]. split.
    + apply sanitize_str_fixed, ascii_view_in_range.
    + now apply sanitize_str_fixed, hexlify_in_range.
  - rewrite (convert_script_raise s e Hu). intros [= <-]. split; reflexivity.
Qed.

Lemma sanitize_keeps_ascii_and_hex_views_witness :
  sanitize_string (VStr (ASCII row_A01B)) = VStr (ASCII row_A01B)
  /\ sanitize_string (VStr (Hex row_A01B)) = VStr (Hex row_A01B).
Proof.
  apply (sanitize_keeps_ascii_and_hex_views (py "410142")). reflexivity.
Defined.

Lemma sanitize_printable (v : pyval) (s : pystr) :
  sanitize_string v = VStr s -> Forall (fun c => 32 <= c <= 126) s.
Proof.
  destruct v as [| b | z | s0]; try discriminate.
  rewrite sanitize_str_filter. intros [= <-].
  apply Forall_forall. intros c Hc. apply filter_In in Hc as [_ Hc].
  unfold in_x20_x7E in Hc. bool_hyps. lia.
Qed.

(** The exported row is produced for every input row: it has the five cells
    Mining Pool Name, Mining Pool Link, TX hash, Timestamp, Date; the two pool
    cells are the matched name and link with the characters outside 0x20..0x7E
    deleted; every cell that is a string holds only characters of that range;
    a cell that is not a string is exported as it is. *)
Theorem export_row_cells {L : StrLower} (r : InputRow) (tags : pool_dict) :
  exists n l,
    attribute_script (input_script r) tags = Ok (n, l)
    /\ export_row r tags
       = Ok [VStr (filter in_x20_x7E n); VStr (filter in_x20_x7E l);
             sanitize_string (tx_hash r); sanitize_string (timestamp r);
             sanitize_string (date r)]
    /\ (forall cells, export_row r tags = Ok cells ->
          Forall (fun c => (forall s, c = VStr s -> Forall (fun ch => 32 <= ch <= 126) s)) cells)
    /\ (is_str (tx_hash r) = false -> sanitize_string (tx_hash r) = tx_hash r)
    /\ (is_str (timestamp r) = false -> sanitize_string (timestamp r) = timestamp r)
    /\ (is_str (date r) = false -> sanitize_string (date r) = date r).
Proof.
  assert (Hns : forall v, is_str v = false -> sanitize_string v = v).
  { intros v Hv. unfold sanitize_string. now rewrite Hv. }
  unfold export_row, attribute_script.
  destruct (malformed_or_ok (input_script r)) as [d Hd]. rewrite Hd. cbn [bind].
  destruct (snd (process_row d tags)) as [n l]. exists n, l.
  cbn [map]. rewrite !sanitize_str_filter.
  repeat split; auto.
  intros cells [= <-].
  repeat constructor; intros s Hs;
    solve [ injection Hs as <-; apply Forall_forall; intros c Hc;
            apply filter_In in Hc as [_ Hc]; unfold in_x20_x7E in Hc;
            bool_hyps; lia
          | eapply sanitize_printable; eassumption ].
Qed.

(** ** The files merge_csv_files reads *)

Lemma ends_with_spec (s suffix : pystr) :
  ends_with s suffix = true <-> exists pre, s = pre ++ suffix.
Proof.
  unfold ends_with. rewrite starts_with_spec. split.
  - intros [post H]. exists (rev post).
    rewrite <- (rev_involutive s), H, rev_app_distr, rev_involutive. reflexivity.
  - intros [pre ->]. exists (rev pre). apply rev_app_distr.
Qed.

Lemma str_le_trans (a b c : pystr) :
  str_ltb b a = false -> str_ltb c b = false -> str_ltb c a = false.
Proof.
  revert b c. induction a as [| x a IH]; intros [| y b] [| z c];
    cbn [str_ltb]; try easy.
  if_cases; bool_hyps; intros H1 H2; try discriminate; try reflexivity; try lia.
  eapply IH; eassumption.
Qed.

Lemma str_le_antisym (a b : pystr) :
  str_ltb a b = false -> str_ltb b a = false -> a = b.
Proof.
  revert b. induction a as [| x a IH]; intros [| y b]; cbn [str_ltb]; try easy.
  if_cases; bool_hyps; intros H1 H2; try discriminate.
  f_equal; [lia | now apply IH].
Qed.

Lemma str_lt_asym (a b : pystr) : str_ltb a b = true -> str_ltb b a = false.
Proof.
  revert b. induction a as [| x a IH]; intros [| y b]; cbn [str_ltb]; try easy.
  if_cases; bool_hyps; intros H1; try discriminate; try reflexivity; try lia.
  now apply IH.
Qed.

Lemma insert_sorted_perm (x : pystr) (l : list pystr) :
  Permutation (insert_sorted x l) (x :: l).
Proof.
  induction l as [| y l IH]; cbn [insert_sorted]; [reflexivity |].
  destruct (str_ltb y x); [| reflexivity].
  rewrite IH. apply perm_swap.
Qed.

Lemma list_sort_perm (l : list pystr) : Permutation (list_sort l) l.
Proof.
  induction l as [| x l IH]; cbn [list_sort fold_right]; [reflexivity |].
  fold (list_sort l). rewrite insert_sorted_perm. now constructor.
Qed.

Lemma insert_sorted_sorted (x : pystr) (l : list pystr) :
  StronglySorted (fun a b => str_ltb b a = false) l ->
  StronglySorted (fun a b => str_ltb b a = false) (insert_sorted x l).
Proof.
  induction 1 as [| y l Hs IH Hy]; cbn [insert_sorted].
  - repeat constructor.
  - destruct (str_ltb y x) eqn:Hyx.
    + constructor; [exact IH |].
      apply (Permutation_Forall (Permutation_sym (insert_sorted_perm x l))).
      constructor; [now apply str_lt_asym | exact Hy].
    + constructor; [now constructor |].
      constructor; [exact Hyx |].
      eapply Forall_impl; [| exact Hy]. intros z Hz. cbn beta in *.
      eapply str_le_trans; eassumption.
Qed.

Lemma list_sort_sorted (l : list pystr) :
  StronglySorted (fun a b => str_ltb b a = false) (list_sort l).
Proof.
  induction l as [| x l IH]; cbn [list_sort fold_right]; [constructor |].
  now apply insert_sorted_sorted.
Qed.

Lemma sorted_perm_unique (l1 l2 : list pystr) :
  StronglySorted (fun a b => str_ltb b a = false) l1 ->
  StronglySorted (fun a b => str_ltb b a = false) l2 ->
  Permutation l1 l2 -> l1 = l2.
Proof.
  intros H1. revert l2. induction H1 as [| x l1 Hs1 IH Hx]; intros l2 H2 Hp.
  - now apply Permutation_nil in Hp.
  - destruct H2 as [| y l2 Hs2 Hy].
    + symmetry in Hp. now apply Permutation_nil in Hp.
    + assert (Hxy : x = y).
      { assert (Hin1 : In x (y :: l2)) by (apply (Permutation_in _ Hp); now left).
        assert (Hin2 : In y (x :: l1))
          by (apply (Permutation_in _ (Permutation_sym Hp)); now left).
        rewrite Forall_forall in Hx, Hy.
        destruct Hin1 as [-> | Hin1]; [reflexivity |].
        destruct Hin2 as [-> | Hin2]; [reflexivity |].
        apply str_le_antisym; [apply (Hy _ Hin1) | apply (Hx _ Hin2)]. }
      subst y. f_equal. apply IH; [exact Hs2 |].
      now apply Permutation_cons_inv in Hp.
Qed.

Lemma filter_perm {A} (f : A -> bool) (l l' : list A) :
  Permutation l l' -> Permutation (filter f l) (filter f l').
Proof.
  induction 1 as [| x l l' _ IH | x y l | l l' l'' _ IH1 _ IH2]; cbn [filter].
  - constructor.
  - destruct (f x); [now constructor | exact IH].
  - destruct (f x), (f y); try reflexivity. apply perm_swap.
  - now transitivity (filter f l').
Qed.

(** The files that are read are the entries of the directory whose name ends
    in .csv (in lower case: the test is exact), each as many times as it is
    listed, in ascending order of their names. *)
Theorem all_files_sorted_csv (listing : list pystr) :
  Permutation (all_files listing) (filter (fun f => ends_with f (py ".csv")) listing)
  /\ StronglySorted (fun a b => str_ltb b a = false) (all_files listing)
  /\ (forall f, In f (all_files listing)
                <-> In f listing /\ exists stem, f = stem ++ py ".csv").
Proof.
  unfold all_files. split; [apply list_sort_perm |].
  split; [apply list_sort_sorted |].
  intros f. rewrite <- ends_with_spec, <- (filter_In (fun f => ends_with f (py ".csv"))).
  split; apply Permutation_in;
    [apply list_sort_perm | apply Permutation_sym, list_sort_perm].
Qed.

(** The order in which the directory is listed does not matter: two listings
    of the same entries give the same files in the same order. *)
Theorem all_files_listing_order_irrelevant (listing listing' : list pystr) :
  Permutation listing listing' -> all_files listing = all_files listing'.
Proof.
  intros Hp. unfold all_files.
  apply sorted_perm_unique; try apply list_sort_sorted.
  rewrite !list_sort_perm. now apply filter_perm.
Qed.

Lemma all_files_listing_order_irrelevant_witness :
  all_files [py "b.csv"; py "notes.txt"; py "a.csv"; py "B.CSV"; py "a.csv.bak"; py "10.csv"]
  = all_files
      (rev [py "b.csv"; py "notes.txt"; py "a.csv"; py "B.CSV"; py "a.csv.bak"; py "10.csv"]).
Proof. apply all_files_listing_order_irrelevant. apply Permutation_rev. Defined.

Example all_files_example :
  all_files [py "b.csv"; py "notes.txt"; py "a.csv"; py "B.CSV"; py "a.csv.bak"; py "10.csv"]
  = [py "10.csv"; py "a.csv"; py "b.csv"].
Proof. reflexivity. Qed.

(** ** Telling an error record from a decoding *)

(** The hex view is the literal Error exactly when the script is not well
    formed: a decoded hex view has an even number of characters and the word
    Error has five. *)
Theorem hex_view_flags_errors (s : pystr) (d : DecodedScript) :
  convert_script s = Ok d ->
  (Hex d = py "Error" <-> well_formed_hex s = false).
Proof.
  destruct (unhexlify s) as [bs | e] eqn:Hu.
  - rewrite (convert_script_ok s bs Hu). intros [= <-]. cbn [Hex].
    rewrite (unhexlify_ok s bs Hu). split; [| discriminate].
    intros H. apply (f_equal (@List.length _)) in H.
    rewrite hexlify_length in H. cbn in H. lia.
  - rewrite (convert_script_raise s e Hu). intros [= <-]. cbn [Hex].
    split; [intros _ | reflexivity].
    destruct (well_formed_hex s) eqn:Hwf; [| reflexivity].
    destruct (unhexlify_well_formed s Hwf) as [bs [Hbs _]]. congruence.
Qed.

Lemma hex_view_flags_errors_witness :
  Hex row_A01B = py "Error" <-> well_formed_hex (py "410142") = false.
Proof. apply (hex_view_flags_errors (py "410142") row_A01B). reflexivity. Defined.

(** The two text views do not tell them apart: the well-formed script
    4572726f72 decodes to the text Error in both. *)
Example text_views_do_not_flag_errors :
  well_formed_hex (py "4572726f72") = true
  /\ convert_script (py "4572726f72")
     = Ok (mkDecoded (py "Error") (py "Error") (py "4572726f72")).
Proof. split; reflexivity. Qed.
